(** * Galaxy image simulation: [EDA/app/app.py]

    A shallow embedding of [generate_image] and of the module-level state it
    runs against.

    Modelling choices.
    - Python floats and the [float32] pixels of a GalSim image are real
      numbers ([R]): rounding, overflow, [inf] and [nan] are outside the
      model.  Python's float division is kept partial: it raises
      [ZeroDivisionError] on a zero divisor.  The division of line 54 has a
      NumPy scalar on the left and raises nothing; it is the division of [R].
    - GalSim and NumPy are not part of the repository.  Their operations are
      the fields of a [Library] record; the program is written against an
      arbitrary library, and the general theorems quantify over it.  A small
      library, [point_sources], is there to run the program on inputs.
    - NumPy arrays are references into a store of buffers, so that views
      ([image.array], [reshape]), copies ([copy.deepcopy]) and in-place
      updates ([drawImage], [addNoise]) are what they are in Python.
    - Exceptions are returned as values together with the store reached when
      they were raised. *)

From Stdlib Require Import Reals Lra ZArith String.
From stdpp Require Import base list gmap strings.

(** ** Exceptions *)

Inductive exn : Type :=
| ZeroDivisionError
| ValueError
| GalSimError (cls : string).

(** The Python class name of an exception. *)
Definition exn_class (e : exn) : string :=
  match e with
  | ZeroDivisionError => "ZeroDivisionError"
  | ValueError => "ValueError"
  | GalSimError cls => cls
  end.

(** ** The libraries the module imports *)

(** [galsim] and [numpy.random], as far as [generate_image] uses them.  A
    GalSim call either returns or raises an exception of the library, given by
    its class name.  [drawImage_values p ncol nrow scale] is the rendering of
    profile [p] on an [nrow] x [ncol] grid, pixel by pixel in row-major
    order.  [BaseDeviate_default] seeds a new deviate from the operating
    system's entropy, which is what GalSim does when no [rng] is passed. *)
Record Library : Type := {
  GSObject : Type;
  BaseDeviate : Type;
  Urandom : Type;
  RandomState : Type;
  Sersic : R -> R -> string + GSObject;
  withFlux : GSObject -> R -> string + GSObject;
  shear : GSObject -> R -> R -> string + GSObject;
  Moffat : R -> R -> R -> string + GSObject;
  Convolve : list GSObject -> string + GSObject;
  drawImage_values : GSObject -> nat -> nat -> R -> string + (nat -> R);
  BaseDeviate_seed : Z -> BaseDeviate;
  BaseDeviate_default : Urandom -> BaseDeviate * Urandom;
  poisson_pixel : BaseDeviate -> R -> R -> R * BaseDeviate;
  normal_sample : RandomState -> R -> R -> R * RandomState
}.

(** ** Fixed parameters *)

Definition image_size : nat := 64.
Definition pixel_scale : R := 0.23.
Definition random_seed : Z := 1314662.
Definition psf_beta : R := 2.

(** ** Arrays and images *)

(** A NumPy array: a view of a buffer of the store, with a shape. *)
Record ndarray : Type := { base : nat; shape : list nat }.

(** A [galsim.ImageF]: its pixel array and its pixel scale. *)
Record Image : Type := { array : ndarray; scale : R }.

(** The deviate objects bound to a name: the module has one, [rng]. *)
Inductive deviate_ref : Type := module_rng.

(** The dictionary [generate_image] returns. *)
Record outcome : Type := {
  noised : ndarray;
  psf : ndarray;
  noiseless : ndarray;
  snr : R;
  g1 : R;
  g2 : R
}.

Definition size_of (shp : list nat) : nat := foldr Nat.mul 1%nat shp.

Definition Rsum (xs : list R) : R := foldr Rplus 0%R xs.

Definition tabulate (n : nat) (f : nat -> R) : list R := map f (seq 0 n).

Section Program.

Context (G : Library).

(** ** Process state *)

(** The store of array buffers, the module-level [rng], the entropy source of
    the operating system and NumPy's global random state. *)
Record world : Type := {
  heap : list (list R);
  rng : BaseDeviate G;
  urandom : Urandom G;
  np_random : RandomState G
}.

Definition set_heap (h : list (list R)) (w : world) : world :=
  {| heap := h; rng := rng w; urandom := urandom w; np_random := np_random w |}.

Definition set_urandom (u : Urandom G) (w : world) : world :=
  {| heap := heap w; rng := rng w; urandom := u; np_random := np_random w |}.

Definition set_np_random (s : RandomState G) (w : world) : world :=
  {| heap := heap w; rng := rng w; urandom := urandom w; np_random := s |}.

(** The state of the process when the module has been imported: line 12 has
    built [rng] from [random_seed + 1]. *)
Definition module_init (u : Urandom G) (s : RandomState G) : world :=
  {| heap := []; rng := BaseDeviate_seed G (random_seed + 1);
     urandom := u; np_random := s |}.

(** ** Computations *)

Definition M (A : Type) : Type := world -> (exn + A) * world.

Definition ret {A} (a : A) : M A := fun w => (inr a, w).

Definition raise {A} (e : exn) : M A := fun w => (inl e, w).

Definition bind {A B} (m : M A) (k : A -> M B) : M B :=
  fun w => match m w with
           | (inl e, w') => (inl e, w')
           | (inr a, w') => k a w'
           end.

Notation "x <- m ;; k" := (bind m (fun x => k))
  (at level 100, m at next level, right associativity).
Notation "m ;;; k" := (bind m (fun _ => k))
  (at level 100, right associativity).

(** A call into GalSim. *)
Definition galsim {A} (r : string + A) : M A :=
  match r with
  | inl cls => raise (GalSimError cls)
  | inr a => ret a
  end.

(** Python's [/] on floats. *)
Definition py_div (x y : R) : M R :=
  if Req_dec_T y 0 then raise ZeroDivisionError else ret (x / y)%R.

(** *** The store *)

Definition alloc (data : list R) : M nat :=
  fun w => (inr (length (heap w)), set_heap (heap w ++ [data]) w).

Definition load (b : nat) : M (list R) :=
  fun w => (inr (match heap w !! b with Some xs => xs | None => [] end), w).

Definition store (b : nat) (data : list R) : M unit :=
  fun w => (inr tt, set_heap (<[b := data]> (heap w)) w).

(** The pixels of an array, read from the store. *)
Definition pixels (a : ndarray) (w : world) : list R :=
  match heap w !! base a with Some xs => xs | None => [] end.

(** *** GalSim images *)

(** [galsim.ImageF(ncol, nrow, scale=s)]: a new image of zeros. *)
Definition ImageF (ncol nrow : nat) (s : R) : M Image :=
  b <- alloc (replicate (nrow * ncol) 0%R) ;;
  ret {| array := {| base := b; shape := [nrow; ncol] |}; scale := s |}.

(** [p.drawImage(image=image)]: renders into the image's own buffer. *)
Definition drawImage (p : GSObject G) (image : Image) : M unit :=
  match shape (array image) with
  | [nrow; ncol] =>
      f <- galsim (drawImage_values G p ncol nrow (scale image)) ;;
      store (base (array image)) (tabulate (nrow * ncol) f)
  | _ => raise ValueError
  end.

(** One pass of a Poisson deviate over the pixels, in order. *)
Fixpoint poisson_generate (d : BaseDeviate G) (sky_level : R) (xs : list R)
  : list R * BaseDeviate G :=
  match xs with
  | [] => ([], d)
  | x :: xs' =>
      let '(y, d1) := poisson_pixel G d sky_level x in
      let '(ys, d2) := poisson_generate d1 sky_level xs' in
      (y :: ys, d2)
  end.

(** A [galsim.PoissonNoise]: the deviate it draws from and its sky level.
    The noise either owns a deviate of its own or shares a deviate object that
    is bound to a name. *)
Inductive PoissonNoise : Type :=
| PoissonNoise_own (d : BaseDeviate G) (sky_level : R)
| PoissonNoise_shared (r : deviate_ref) (sky_level : R).

(** [galsim.PoissonNoise(rng=None, sky_level=0.0)].  With [rng=None] GalSim
    seeds a new deviate from the system's entropy; with a deviate, the noise
    shares it. *)
Definition new_PoissonNoise (rng : option deviate_ref) (sky_level : R)
  : M PoissonNoise :=
  match rng with
  | Some r => ret (PoissonNoise_shared r sky_level)
  | None =>
      fun w =>
        let du := BaseDeviate_default G (urandom w) in
        (inr (PoissonNoise_own (fst du) sky_level), set_urandom (snd du) w)
  end.

(** [image.addNoise(noise)]: overwrites the image's pixels in place. *)
Definition addNoise (image : Image) (noise : PoissonNoise) : M unit :=
  xs <- load (base (array image)) ;;
  match noise with
  | PoissonNoise_own d sky_level =>
      store (base (array image)) (fst (poisson_generate d sky_level xs))
  | PoissonNoise_shared module_rng sky_level =>
      fun w =>
        let ysd := poisson_generate (rng w) sky_level xs in
        store (base (array image)) (fst ysd)
          {| heap := heap w; rng := snd ysd; urandom := urandom w;
             np_random := np_random w |}
  end.

(** *** NumPy *)

(** [copy.deepcopy(a)]: a new buffer with the same contents. *)
Definition deepcopy (a : ndarray) : M ndarray :=
  xs <- load (base a) ;;
  b <- alloc xs ;;
  ret {| base := b; shape := shape a |}.

(** [a ** 2]: a new array. *)
Definition np_square (a : ndarray) : M ndarray :=
  xs <- load (base a) ;;
  b <- alloc (map (fun x => x ^ 2)%R xs) ;;
  ret {| base := b; shape := shape a |}.

(** [a.sum()] *)
Definition np_sum (a : ndarray) : M R :=
  xs <- load (base a) ;;
  ret (Rsum xs).

Fixpoint normal_samples (n : nat) (s : RandomState G) (loc sigma : R)
  : list R * RandomState G :=
  match n with
  | O => ([], s)
  | S n' =>
      let '(x, s1) := normal_sample G s loc sigma in
      let '(xs, s2) := normal_samples n' s1 loc sigma in
      (x :: xs, s2)
  end.

(** [np.random.normal(loc, sigma, size)]: draws from the global random state;
    NumPy raises [ValueError] for a negative standard deviation. *)
Definition np_random_normal (loc sigma : R) (size : nat) : M ndarray :=
  if Rlt_dec sigma 0 then raise ValueError
  else
    b <- (fun w =>
            let xss := normal_samples size (np_random w) loc sigma in
            alloc (fst xss) (set_np_random (snd xss) w)) ;;
    ret {| base := b; shape := [size] |}.

(** [a.reshape(shp)]: a view of the same buffer. *)
Definition np_reshape (a : ndarray) (shp : list nat) : M ndarray :=
  if decide (size_of shp = size_of (shape a))
  then ret {| base := base a; shape := shp |}
  else raise ValueError.

(** [a + b] for arrays of one shape: a new array. *)
Definition np_add (a b : ndarray) : M ndarray :=
  if decide (shape a = shape b) then
    xs <- load (base a) ;;
    ys <- load (base b) ;;
    c <- alloc (zip_with Rplus xs ys) ;;
    ret {| base := c; shape := shape a |}
  else raise ValueError.

(** ** [generate_image] *)

Definition generate_image
  (psf_re bulge_re bulge_n gal_q gal_beta noise gal_flux : R) : M outcome :=
  A <- py_div (1 - gal_q) (gal_q + 1) ;;
  let g_1 := (A * cos (2 * gal_beta))%R in
  let g_2 := (A * sin (2 * gal_beta))%R in

  gal <- galsim (Sersic G bulge_n bulge_re) ;;
  gal <- galsim (withFlux G gal gal_flux) ;;
  gal <- galsim (shear G gal g_1 g_2) ;;
  psf <- galsim (Moffat G psf_beta 1 psf_re) ;;
  final <- galsim (Convolve G [psf; gal]) ;;
  image <- ImageF image_size image_size pixel_scale ;;
  drawImage final image ;;;
  image_nonoise <- deepcopy (array image) ;;

  sq <- np_square (array image) ;;
  total <- np_sum sq ;;
  let snr := (sqrt total / noise)%R in

  pn <- new_PoissonNoise None 0 ;;
  addNoise image pn ;;;
  noisemap <- np_random_normal 0 noise (64 * 64) ;;
  noisemap <- np_reshape noisemap [64; 64]%nat ;;
  img_fv <- np_add (array image) noisemap ;;

  let final_2 := psf in
  image_2 <- ImageF image_size image_size pixel_scale ;;
  drawImage final_2 image_2 ;;;

  ret {| noised := img_fv;
         psf := array image_2;
         noiseless := image_nonoise;
         snr := snr;
         g1 := g_1;
         g2 := g_2 |}.

End Program.

Arguments heap {G} _.
Arguments rng {G} _.
Arguments urandom {G} _.
Arguments np_random {G} _.
Arguments pixels {G} _ _.

(** ** Notions used to state the properties *)

Section Views.

Context (G : Library).

Local Open Scope R_scope.

(** The same process state with another deviate bound to [rng]. *)
Definition set_rng (r : BaseDeviate G) (w : world G) : world G :=
  {| heap := heap w; rng := r; urandom := urandom w; np_random := np_random w |}.

(** The value of [A] on line 40, when the division returns. *)
Definition shear_magnitude (gal_q : R) : R := (1 - gal_q) / (gal_q + 1).

(** Lines 44-48 as one GalSim computation: the PSF and the convolved profile
    ([psf] and [final]), or the class of the exception the first failing
    constructor raises.  The noise level is not among the arguments. *)
Definition profiles (psf_re bulge_re bulge_n gal_q gal_beta gal_flux : R)
  : string + (GSObject G * GSObject G) :=
  match Sersic G bulge_n bulge_re with
  | inl cls => inl cls
  | inr gal =>
  match withFlux G gal gal_flux with
  | inl cls => inl cls
  | inr gal =>
  match shear G gal (shear_magnitude gal_q * cos (2 * gal_beta))
                    (shear_magnitude gal_q * sin (2 * gal_beta)) with
  | inl cls => inl cls
  | inr gal =>
  match Moffat G psf_beta 1 psf_re with
  | inl cls => inl cls
  | inr psf =>
  match Convolve G [psf; gal] with
  | inl cls => inl cls
  | inr final => inr (psf, final)
  end end end end end.

(** The rendering of a profile on the grid of the module. *)
Definition rendering (p : GSObject G) : string + (nat -> R) :=
  drawImage_values G p image_size image_size pixel_scale.

(** The GalSim calls of lines 44-50 and 63-65 all return: they render the
    convolved profile as [f] and the bare PSF as [fp]. *)
Definition rasterized
  (psf_re bulge_re bulge_n gal_q gal_beta gal_flux : R) (f fp : nat -> R)
  : Prop :=
  exists psf final,
    profiles psf_re bulge_re bulge_n gal_q gal_beta gal_flux = inr (psf, final) /\
    rendering final = inr f /\
    rendering psf = inr fp.

(** One of the GalSim calls of [generate_image] raises [cls], the calls
    before it having returned. *)
Definition galsim_raises
  (psf_re bulge_re bulge_n gal_q gal_beta gal_flux : R) (cls : string)
  : Prop :=
  profiles psf_re bulge_re bulge_n gal_q gal_beta gal_flux = inl cls \/
  exists psf final,
    profiles psf_re bulge_re bulge_n gal_q gal_beta gal_flux = inr (psf, final) /\
    (rendering final = inl cls \/
     exists f, rendering final = inr f /\ rendering psf = inl cls).

(** The pixels of the rasterized image. *)
Definition raster (f : nat -> R) : list R := tabulate (image_size * image_size) f.

(** The pixels line 56 leaves in the image: one pass over the raster of a
    Poisson deviate seeded from the entropy of the system. *)
Definition photon_pixels (w : world G) (f : nat -> R) : list R :=
  fst (poisson_generate G (fst (BaseDeviate_default G (urandom w))) 0 (raster f)).

(** The field line 57 draws from NumPy's global random state. *)
Definition background (w : world G) (noise : R) : list R :=
  fst (normal_samples G (64 * 64) (np_random w) 0 noise).

(** What a call that returns hands back, and the state it leaves: [n] is the
    number of buffers of the store at the call, [f] and [fp] the renderings
    of the convolved profile and of the bare PSF.  [generate_image_eq] below
    proves that this is what the program computes. *)
Definition outcome_of (n : nat) (gal_q gal_beta noise : R) (f : nat -> R)
  : outcome :=
  {| noised := {| base := n + 4; shape := [64; 64]%nat |};
     psf := {| base := n + 5; shape := [image_size; image_size] |};
     noiseless := {| base := n + 1; shape := [image_size; image_size] |};
     snr := sqrt (Rsum (map (fun x => x ^ 2) (raster f))) / noise;
     g1 := shear_magnitude gal_q * cos (2 * gal_beta);
     g2 := shear_magnitude gal_q * sin (2 * gal_beta) |}.

Definition world_after (w : world G) (noise : R) (f fp : nat -> R) : world G :=
  {| heap := heap w ++
             [photon_pixels w f; raster f; map (fun x => x ^ 2) (raster f);
              background w noise;
              zip_with Rplus (photon_pixels w f) (background w noise);
              raster fp];
     rng := rng w;
     urandom := snd (BaseDeviate_default G (urandom w));
     np_random := snd (normal_samples G (64 * 64) (np_random w) 0 noise) |}.

End Views.


(** ** A library to run the program on *)

(** The rendering of a point source of the given flux. *)
Definition point (flux : R) : nat -> R :=
  fun k => match k with O => flux | S _ => 0%R end.

(** Every profile is a point source, given by its flux and drawn into the
    first pixel; a deviate is a counter, and a draw returns its mean shifted
    by the counter. *)
Definition point_sources : Library := {|
  GSObject := R;
  BaseDeviate := Z;
  Urandom := Z;
  RandomState := Z;
  Sersic := fun _ _ => inr 1%R;
  withFlux := fun _ flux => inr flux;
  shear := fun p _ _ => inr p;
  Moffat := fun _ flux _ => inr flux;
  Convolve := fun ps => inr (foldr Rmult 1%R ps);
  drawImage_values := fun p _ _ _ => inr (point p);
  BaseDeviate_seed := fun seed => seed;
  BaseDeviate_default := fun u => (u, (u + 1)%Z);
  poisson_pixel := fun d sky_level x => ((x + sky_level + IZR d)%R, (d + 1)%Z);
  normal_sample := fun s loc sigma => ((loc + sigma * IZR s)%R, (s + 1)%Z)
|}.


(** ** The sliders and the call of [main] *)

(** An entry of the [params] dictionary. *)
Module param.
Record t : Type := {
  min : R; max : R; default : R; step : R; name : string
}.
End param.

(** The [params] dictionary of lines 16-36, in insertion order: the
    description of a slider and its settings. *)
Definition params : list (string * param.t) := [
  ("PSF moffat scale radius (in arcsec)"%string,
   {| param.min := 0.5; param.max := 1.0; param.default := 0.75;
      param.step := 0.05; param.name := "psf_re" |});
  ("Sersic radius (in arcsec)"%string,
   {| param.min := 0.1; param.max := 0.6; param.default := 0.35;
      param.step := 0.05; param.name := "bulge_re" |});
  ("Sersic index"%string,
   {| param.min := 0.5; param.max := 6.0; param.default := 3.25;
      param.step := 0.25; param.name := "bulge_n" |});
  ("Ellipticity"%string,
   {| param.min := 0.1976; param.max := 1.0; param.default := 0.6;
      param.step := 0.1; param.name := "gal_q" |});
  ("Orientation (in radians)"%string,
   {| param.min := 0.0; param.max := 3.14; param.default := 3.14 / 2;
      param.step := 0.1; param.name := "gal_beta" |});
  ("Noise level"%string,
   {| param.min := 200; param.max := 400; param.default := 300;
      param.step := 10; param.name := "noise" |});
  ("Flux"%string,
   {| param.min := 0.3 * 1e5; param.max := 4.0 * 1e5;
      param.default := 2.15 * 1e5; param.step := 0.1 * 1e5;
      param.name := "gal_flux" |})
]%R.

(** What a call with keyword arguments can raise: Python's [TypeError] when
    the keywords do not fit the signature, or what the function raises. *)
Inductive call_error : Type :=
| TypeError
| Raised (e : exn).

(** The parameters of [generate_image] (line 39). *)
Definition generate_image_signature : list string :=
  ["psf_re"; "bulge_re"; "bulge_n"; "gal_q"; "gal_beta"; "noise"; "gal_flux"]%string.

Section Main.

Context (G : Library).

(** Streamlit's slider: the value the widget has, given its description,
    minimum, maximum, default and step. *)
Context (slider : string -> R -> R -> R -> R -> R).

(** The loop of lines 107-114: the [settings] dictionary, from the name of a
    parameter to the value of its slider. *)
Definition settings : gmap string R :=
  foldl (fun acc '(description, p) =>
           <[param.name p :=
               slider description (param.min p) (param.max p)
                 (param.default p) (param.step p)]> acc)
        ∅ params.

(** [generate_image( **kw )]: every parameter is bound to the keyword of its
    name; a missing parameter or a keyword that is no parameter raises
    [TypeError]. *)
Definition generate_image_kwargs (kw : gmap string R)
  : world G -> (call_error + outcome) * world G :=
  fun w =>
    match kw !! "psf_re"%string, kw !! "bulge_re"%string,
          kw !! "bulge_n"%string, kw !! "gal_q"%string,
          kw !! "gal_beta"%string, kw !! "noise"%string,
          kw !! "gal_flux"%string with
    | Some psf_re, Some bulge_re, Some bulge_n, Some gal_q, Some gal_beta,
      Some noise, Some gal_flux =>
        if decide (dom kw ⊆ list_to_set generate_image_signature)
        then
          match generate_image G psf_re bulge_re bulge_n gal_q gal_beta noise
                  gal_flux w with
          | (inl e, w') => (inl (Raised e), w')
          | (inr o, w') => (inr o, w')
          end
        else (inl TypeError, w)
    | _, _, _, _, _, _, _ => (inl TypeError, w)
    end.

(** Line 116: the outcome [main] computes from the sliders. *)
Definition main_outcome : world G -> (call_error + outcome) * world G :=
  generate_image_kwargs settings.

(** Streamlit keeps a slider between its minimum and its maximum. *)
Definition sliders_in_range : Prop :=
  Forall (fun '(description, p) =>
            (param.min p <=
             slider description (param.min p) (param.max p) (param.default p)
               (param.step p) <= param.max p)%R)
         params.

End Main.

(** * Properties *)

(** ** The store as a list of buffers *)

Lemma lookup_alloc {A} (h ext : list A) k :
  (h ++ ext) !! (length h + k)%nat = ext !! k.
Proof. rewrite lookup_app_r by lia. f_equal. lia. Qed.

Lemma lookup_alloc_0 {A} (h ext : list A) :
  (h ++ ext) !! length h = ext !! 0%nat.
Proof. rewrite <- (lookup_alloc h ext 0). f_equal. lia. Qed.

Lemma insert_alloc_0 {A} (h ext : list A) x :
  <[length h := x]> (h ++ ext) = h ++ <[0%nat := x]> ext.
Proof. rewrite <- (insert_app_r h ext 0). f_equal. lia. Qed.

Ltac heap_step :=
  first
    [ rewrite <- app_assoc
    | rewrite length_app
    | rewrite length_insert
    | rewrite insert_app_r
    | rewrite insert_alloc_0
    | rewrite lookup_alloc
    | rewrite lookup_alloc_0
    | rewrite <- Nat.add_assoc ].

(** Runs the program up to the next library call or test. *)
Ltac run :=
  repeat first
    [ progress cbn [bind ret raise galsim alloc load store pixels
                    ImageF drawImage deepcopy np_square np_sum
                    new_PoissonNoise addNoise
                    array base shape scale
                    heap rng urandom np_random
                    set_heap set_urandom set_np_random set_rng
                    app length lookup list_lookup insert list_insert
                    fst snd Nat.add]
    | heap_step ].

(** Case analysis on the library call or test the program is waiting for, in
    the order of the program. *)
Ltac next_call G :=
  match goal with
  | |- context [Req_dec_T ?a ?b] => destruct (Req_dec_T a b)
  | |- context [Sersic G ?a ?b] => destruct (Sersic G a b)
  | |- context [withFlux G ?a ?b] => destruct (withFlux G a b)
  | |- context [shear G ?a ?b ?c] => destruct (shear G a b c)
  | |- context [Moffat G ?a ?b ?c] => destruct (Moffat G a b c)
  | |- context [Convolve G ?a] => destruct (Convolve G a)
  | H : drawImage_values G ?a ?b ?c ?d = _
    |- context [drawImage_values G ?a ?b ?c ?d] => rewrite H
  | |- context [drawImage_values G ?a ?b ?c ?d] =>
      destruct (drawImage_values G a b c d) eqn:?
  | |- context [Rlt_dec ?a ?b] => destruct (Rlt_dec a b)
  | |- context [decide (?a = ?b)] =>
      rewrite (decide_True (P := a = b)) by reflexivity
  end.

(** ** The result of [generate_image], case by case *)

Section Run.

Context (G : Library).
Context (psf_re bulge_re bulge_n gal_q gal_beta noise gal_flux : R).

Local Open Scope R_scope.

Abbreviation run_generate w :=
  (generate_image G psf_re bulge_re bulge_n gal_q gal_beta noise gal_flux w).

Lemma generate_image_eq (w : world G) :
  run_generate w =
    if Req_dec_T (gal_q + 1) 0 then (inl ZeroDivisionError, w)
    else
      match profiles G psf_re bulge_re bulge_n gal_q gal_beta gal_flux with
      | inl cls => (inl (GalSimError cls), w)
      | inr (psf, final) =>
      match rendering G final with
      | inl cls =>
          (inl (GalSimError cls),
           set_heap G (heap w ++ [replicate (image_size * image_size) 0]) w)
      | inr f =>
      let n := length (heap w) in
      let u := snd (BaseDeviate_default G (urandom w)) in
      let squares := map (fun x => x ^ 2) (raster f) in
      let h3 := [photon_pixels G w f; raster f; squares] in
      if Rlt_dec noise 0
      then (inl ValueError,
            {| heap := heap w ++ h3; rng := rng w; urandom := u;
               np_random := np_random w |})
      else
      let s := snd (normal_samples G (64 * 64) (np_random w) 0 noise) in
      let h5 := h3 ++ [background G w noise;
                       zip_with Rplus (photon_pixels G w f)
                                      (background G w noise)] in
      match rendering G psf with
      | inl cls =>
          (inl (GalSimError cls),
           {| heap := heap w ++ h5 ++ [replicate (image_size * image_size) 0];
              rng := rng w; urandom := u; np_random := s |})
      | inr fp =>
          (inr (outcome_of n gal_q gal_beta noise f),
           world_after G w noise f fp)
      end end end.
Proof.
  destruct w as [h r u s].
  unfold generate_image, py_div, np_random_normal, np_reshape, np_add.
  unfold outcome_of, world_after.
  unfold profiles, rendering, photon_pixels, background, raster.
  unfold shear_magnitude.
  run; repeat (next_call G; run).
  all: reflexivity.
Qed.

(** A call returns when the division and the library calls do and the noise
    level is not negative. *)
Lemma generate_image_returns (w : world G) f fp :
  gal_q + 1 <> 0 -> ~ noise < 0 ->
  rasterized G psf_re bulge_re bulge_n gal_q gal_beta gal_flux f fp ->
  run_generate w =
    (inr (outcome_of (length (heap w)) gal_q gal_beta noise f),
     world_after G w noise f fp).
Proof.
  intros Hq Hn (psf0 & final & Hp & Hf & Hfp).
  rewrite generate_image_eq.
  destruct (Req_dec_T (gal_q + 1) 0) as [|_]; [contradiction|].
  rewrite Hp, Hf. cbv zeta.
  destruct (Rlt_dec noise 0) as [|_]; [contradiction|].
  rewrite Hfp. reflexivity.
Qed.

(** Conversely, that is the only way a call returns. *)
Lemma generate_image_spec (w : world G) o w' :
  run_generate w = (inr o, w') ->
  gal_q + 1 <> 0 /\ ~ noise < 0 /\
  exists f fp,
    rasterized G psf_re bulge_re bulge_n gal_q gal_beta gal_flux f fp /\
    o = outcome_of (length (heap w)) gal_q gal_beta noise f /\
    w' = world_after G w noise f fp.
Proof.
  intros E.
  assert (E1 : fst (run_generate w) = inr o) by (rewrite E; reflexivity).
  assert (E2 : snd (run_generate w) = w') by (rewrite E; reflexivity).
  clear E. rewrite generate_image_eq in E1, E2.
  destruct (Req_dec_T (gal_q + 1) 0) as [|Hq]; [discriminate E1|].
  destruct (profiles G _ _ _ _ _ _) as [cls|[psf0 final]] eqn:Hp;
    [discriminate E1|].
  destruct (rendering G final) as [cls|f] eqn:Hf; [discriminate E1|].
  cbv zeta in E1, E2.
  destruct (Rlt_dec noise 0) as [|Hn]; [discriminate E1|].
  destruct (rendering G psf0) as [cls|fp] eqn:Hfp; [discriminate E1|].
  cbn [fst snd] in E1, E2. injection E1 as <-. subst w'.
  split; [assumption|]. split; [assumption|].
  exists f, fp. split; [|split; reflexivity].
  exists psf0, final. split; [assumption|]. split; assumption.
Qed.


(** The pixels of the three images in the state a call leaves. *)
Lemma pixels_after (w : world G) f fp :
  let o := outcome_of (length (heap w)) gal_q gal_beta noise f in
  let w' := world_after G w noise f fp in
  pixels (noiseless o) w' = raster f /\
  pixels (psf o) w' = raster fp /\
  pixels (noised o) w' =
    zip_with Rplus (photon_pixels G w f) (background G w noise) /\
  heap w' !! length (heap w) = Some (photon_pixels G w f).
Proof.
  cbv zeta. unfold pixels, outcome_of, world_after.
  cbn [heap base noiseless psf noised].
  rewrite !lookup_alloc, lookup_alloc_0. repeat split; reflexivity.
Qed.

End Run.

(** ** The point-source library *)

Lemma point_sources_rasterized psf_re bulge_re bulge_n gal_q gal_beta gal_flux :
  rasterized point_sources psf_re bulge_re bulge_n gal_q gal_beta gal_flux
    (point (1 * (gal_flux * 1))) (point 1).
Proof. exists 1%R, (1 * (gal_flux * 1))%R. repeat split. Qed.

Lemma point_sources_returns psf_re bulge_re bulge_n gal_q gal_beta noise gal_flux w :
  (gal_q + 1 <> 0)%R -> ~ (noise < 0)%R ->
  generate_image point_sources psf_re bulge_re bulge_n gal_q gal_beta noise
    gal_flux w =
    (inr (outcome_of (length (heap w)) gal_q gal_beta noise
            (point (1 * (gal_flux * 1)))),
     world_after point_sources w noise (point (1 * (gal_flux * 1))) (point 1)).
Proof.
  intros Hq Hn. apply generate_image_returns; [assumption|assumption|].
  apply point_sources_rasterized.
Qed.

(** ** Shear components *)

Section Shear.

Context (G : Library).
Context (psf_re bulge_re bulge_n gal_q gal_beta noise gal_flux : R).

Local Open Scope R_scope.

(** C1.  For an axis ratio [0 < gal_q <= 1] and any position angle, the shear
    components a call returns are [A * cos (2 * gal_beta)] and
    [A * sin (2 * gal_beta)] with [A = (1 - gal_q) / (1 + gal_q)]; this [A]
    satisfies [0 <= A < 1], the squares of the components add up to the square
    of [A], and both components are 0 for [gal_q = 1]. *)
Theorem shear_components (w : world G) o w' :
  0 < gal_q <= 1 ->
  generate_image G psf_re bulge_re bulge_n gal_q gal_beta noise gal_flux w
    = (inr o, w') ->
  g1 o = (1 - gal_q) / (1 + gal_q) * cos (2 * gal_beta) /\
  g2 o = (1 - gal_q) / (1 + gal_q) * sin (2 * gal_beta) /\
  0 <= (1 - gal_q) / (1 + gal_q) < 1 /\
  g1 o ^ 2 + g2 o ^ 2 = ((1 - gal_q) / (1 + gal_q)) ^ 2 /\
  (gal_q = 1 -> g1 o = 0 /\ g2 o = 0).
Proof.
  intros [Hq0 Hq1] E.
  apply generate_image_spec in E as (_ & _ & f & fp & _ & -> & _).
  cbn [g1 g2 outcome_of]. unfold shear_magnitude.
  rewrite (Rplus_comm gal_q 1).
  set (A := (1 - gal_q) / (1 + gal_q)).
  assert (HA : 0 <= A < 1).
  { unfold A. split.
    - apply Rmult_le_pos; [lra|]. left. apply Rinv_0_lt_compat. lra.
    - apply (Rmult_lt_reg_r (1 + gal_q)); [lra|].
      unfold Rdiv. rewrite Rmult_assoc, Rinv_l by lra. lra. }
  split; [reflexivity|]. split; [reflexivity|]. split; [exact HA|]. split.
  - pose proof (sin2_cos2 (2 * gal_beta)) as H. unfold Rsqr in H.
    replace ((A * cos (2 * gal_beta)) ^ 2 + (A * sin (2 * gal_beta)) ^ 2)
      with (A ^ 2 * (sin (2 * gal_beta) * sin (2 * gal_beta) +
                     cos (2 * gal_beta) * cos (2 * gal_beta))) by ring.
    rewrite H. ring.
  - intros ->. assert (HA0 : A = 0).
    { unfold A. rewrite Rminus_diag. apply Rdiv_0_l. }
    rewrite HA0. split; ring.
Qed.

End Shear.

Lemma shear_components_witness :
  exists o w',
    generate_image point_sources 0.75 0.35 3.25 0.6 (3.14 / 2) 300 215000
      (module_init point_sources 0%Z 0%Z) = (inr o, w') /\
    (g1 o = (1 - 0.6) / (1 + 0.6) * cos (2 * (3.14 / 2)) /\
     g2 o = (1 - 0.6) / (1 + 0.6) * sin (2 * (3.14 / 2)) /\
     0 <= (1 - 0.6) / (1 + 0.6) < 1 /\
     g1 o ^ 2 + g2 o ^ 2 = ((1 - 0.6) / (1 + 0.6)) ^ 2 /\
     (0.6 = 1 -> g1 o = 0 /\ g2 o = 0))%R.
Proof.
  assert (E := point_sources_returns 0.75 0.35 3.25 0.6 (3.14 / 2) 300 215000
                 (module_init point_sources 0%Z 0%Z) ltac:(lra) ltac:(lra)).
  eexists. eexists. split; [exact E|].
  exact (shear_components point_sources 0.75 0.35 3.25 0.6 (3.14 / 2) 300
           215000 _ _ _ ltac:(lra) E).
Defined.

(** ** The returned images and the signal-to-noise ratio *)

Section Images.

Context (G : Library).
Context (psf_re bulge_re bulge_n gal_q gal_beta noise gal_flux : R).

Local Open Scope R_scope.

Abbreviation run_generate w :=
  (generate_image G psf_re bulge_re bulge_n gal_q gal_beta noise gal_flux w).

(** C2.  The returned [snr] is the square root of the sum of the squared
    pixels of the returned noiseless image, divided by [noise]: recomputing it
    from the returned array gives the returned value. *)
Theorem snr_recomputed (w : world G) o w' :
  run_generate w = (inr o, w') ->
  snr o = sqrt (Rsum (map (fun x => x ^ 2) (pixels (noiseless o) w'))) / noise.
Proof.
  intros E.
  apply generate_image_spec in E as (_ & _ & f & fp & _ & -> & ->).
  destruct (pixels_after G gal_q gal_beta noise w f fp) as (-> & _).
  reflexivity.
Qed.

(** C8.  The image of line 49 lives in the first buffer the call allocates,
    number [length (heap w)]; [drawImage] renders into it and [addNoise]
    overwrites it in place, so that it holds the photon-noised pixels when the
    call returns.  The returned noiseless array is another buffer, and still
    holds the rendering of the convolved profile; the noisy array is a third
    one. *)
Theorem noiseless_is_copy (w : world G) o w' :
  run_generate w = (inr o, w') ->
  exists f fp,
    rasterized G psf_re bulge_re bulge_n gal_q gal_beta gal_flux f fp /\
    pixels (noiseless o) w' = raster f /\
    heap w' !! length (heap w) = Some (photon_pixels G w f) /\
    base (noiseless o) <> length (heap w) /\
    base (noiseless o) <> base (noised o) /\
    pixels (noised o) w' =
      zip_with Rplus (photon_pixels G w f) (background G w noise).
Proof.
  intros E.
  apply generate_image_spec in E as (_ & _ & f & fp & Hr & -> & ->).
  exists f, fp. split; [exact Hr|].
  destruct (pixels_after G gal_q gal_beta noise w f fp) as (H1 & _ & H3 & H4).
  split; [exact H1|]. split; [exact H4|].
  cbn [base noiseless noised outcome_of].
  split; [lia|]. split; [lia|]. exact H3.
Qed.

(** C7.  The noiseless image and the PSF image are functions of the seven
    parameters: from any two process states (stores, deviates, entropy, NumPy
    state) two calls with the same parameters raise the same exception, or
    both return, with the same noiseless pixels and the same PSF pixels. *)
Theorem images_deterministic (w1 w2 : world G) :
  match fst (run_generate w1), fst (run_generate w2) with
  | inr o1, inr o2 =>
      pixels (noiseless o1) (snd (run_generate w1)) =
        pixels (noiseless o2) (snd (run_generate w2)) /\
      pixels (psf o1) (snd (run_generate w1)) =
        pixels (psf o2) (snd (run_generate w2)) /\
      shape (noiseless o1) = shape (noiseless o2) /\
      shape (psf o1) = shape (psf o2)
  | inl e1, inl e2 => e1 = e2
  | _, _ => False
  end.
Proof.
  rewrite !generate_image_eq.
  destruct (Req_dec_T (gal_q + 1) 0); [reflexivity|].
  destruct (profiles G _ _ _ _ _ _) as [cls|[psf0 final]]; [reflexivity|].
  destruct (rendering G final) as [cls|f]; [reflexivity|].
  cbv zeta. destruct (Rlt_dec noise 0); [reflexivity|].
  destruct (rendering G psf0) as [cls|fp]; [reflexivity|].
  cbn [fst snd].
  destruct (pixels_after G gal_q gal_beta noise w1 f fp) as (-> & -> & _).
  destruct (pixels_after G gal_q gal_beta noise w2 f fp) as (-> & -> & _).
  repeat split.
Qed.

(** C10.  The module-level [rng] is neither advanced nor read by a call: it
    is the same deviate after the call, whether the call returns or raises,
    and binding another deviate to [rng] changes nothing else in the result
    or in the state reached.  The two random components of the noisy image
    are drawn from a deviate seeded from the entropy of the system and from
    NumPy's global state. *)
Theorem module_rng_untouched (w : world G) :
  rng (snd (run_generate w)) = rng w /\
  (forall r, run_generate (set_rng G r w) =
             (fst (run_generate w), set_rng G r (snd (run_generate w)))) /\
  (forall o, fst (run_generate w) = inr o ->
     exists f fp,
       rasterized G psf_re bulge_re bulge_n gal_q gal_beta gal_flux f fp /\
       pixels (noised o) (snd (run_generate w)) =
         zip_with Rplus
           (fst (poisson_generate G (fst (BaseDeviate_default G (urandom w)))
                   0 (raster f)))
           (fst (normal_samples G (64 * 64) (np_random w) 0 noise))).
Proof.
  split; [|split].
  - rewrite generate_image_eq.
    destruct (Req_dec_T (gal_q + 1) 0); [reflexivity|].
    destruct (profiles G _ _ _ _ _ _) as [cls|[psf0 final]]; [reflexivity|].
    destruct (rendering G final) as [cls|f]; [reflexivity|].
    cbv zeta. destruct (Rlt_dec noise 0); [reflexivity|].
    destruct (rendering G psf0) as [cls|fp]; reflexivity.
  - intros r. rewrite !generate_image_eq.
    destruct (Req_dec_T (gal_q + 1) 0); [reflexivity|].
    destruct (profiles G _ _ _ _ _ _) as [cls|[psf0 final]]; [reflexivity|].
    destruct (rendering G final) as [cls|f]; [reflexivity|].
    cbv zeta. destruct (Rlt_dec noise 0); [reflexivity|].
    destruct (rendering G psf0) as [cls|fp]; reflexivity.
  - intros o Ho.
    destruct (run_generate w) as [r w'] eqn:E. cbn [fst snd] in *. subst r.
    apply generate_image_spec in E as (_ & _ & f & fp & Hr & -> & ->).
    exists f, fp. split; [exact Hr|].
    destruct (pixels_after G gal_q gal_beta noise w f fp) as (_ & _ & -> & _).
    reflexivity.
Qed.

End Images.

Lemma snr_recomputed_witness :
  exists o w',
    generate_image point_sources 0.75 0.35 3.25 0.6 (3.14 / 2) 300 215000
      (module_init point_sources 0%Z 0%Z) = (inr o, w') /\
    snr o =
      (sqrt (Rsum (map (fun x => x ^ 2) (pixels (noiseless o) w'))) / 300)%R.
Proof.
  assert (E := point_sources_returns 0.75 0.35 3.25 0.6 (3.14 / 2) 300 215000
                 (module_init point_sources 0%Z 0%Z) ltac:(lra) ltac:(lra)).
  eexists. eexists. split; [exact E|].
  exact (snr_recomputed point_sources 0.75 0.35 3.25 0.6 (3.14 / 2) 300
           215000 _ _ _ E).
Defined.

Lemma noiseless_is_copy_witness :
  exists o w',
    generate_image point_sources 0.75 0.35 3.25 0.6 (3.14 / 2) 300 215000
      (module_init point_sources 0%Z 0%Z) = (inr o, w') /\
    exists f fp,
      rasterized point_sources 0.75 0.35 3.25 0.6 (3.14 / 2) 215000 f fp /\
      pixels (noiseless o) w' = raster f /\
      heap w' !! length (heap (module_init point_sources 0%Z 0%Z)) =
        Some (photon_pixels point_sources
                (module_init point_sources 0%Z 0%Z) f) /\
      base (noiseless o) <> length (heap (module_init point_sources 0%Z 0%Z)) /\
      base (noiseless o) <> base (noised o) /\
      pixels (noised o) w' =
        zip_with Rplus
          (photon_pixels point_sources (module_init point_sources 0%Z 0%Z) f)
          (background point_sources (module_init point_sources 0%Z 0%Z) 300).
Proof.
  assert (E := point_sources_returns 0.75 0.35 3.25 0.6 (3.14 / 2) 300 215000
                 (module_init point_sources 0%Z 0%Z) ltac:(lra) ltac:(lra)).
  eexists. eexists. split; [exact E|].
  exact (noiseless_is_copy point_sources 0.75 0.35 3.25 0.6 (3.14 / 2) 300
           215000 _ _ _ E).
Defined.

(** ** The PSF image *)

Lemma profiles_psf (G : Library) psf_re bulge_re bulge_n gal_q gal_beta gal_flux
  (p final : GSObject G) :
  profiles G psf_re bulge_re bulge_n gal_q gal_beta gal_flux = inr (p, final) ->
  Moffat G psf_beta 1 psf_re = inr p.
Proof.
  unfold profiles.
  destruct (Sersic G bulge_n bulge_re) as [|gal0]; [discriminate|].
  destruct (withFlux G gal0 gal_flux) as [|gal1]; [discriminate|].
  destruct (shear G gal1 _ _) as [|gal]; [discriminate|].
  destruct (Moffat G psf_beta 1 psf_re) as [|p0]; [discriminate|].
  destruct (Convolve G [p0; gal]) as [|c]; [discriminate|].
  intros H. injection H as -> _. reflexivity.
Qed.

(** X1 (the part of C5 that is about the program).  The PSF image is the
    rendering of the bare Moffat profile of line 47,
    which is neither sheared nor convolved, and no noise is added to it; it
    depends on [psf_re] alone: two calls that differ in the other six
    parameters and in the process state return the same PSF pixels. *)
Theorem psf_image_bare (G : Library) psf_re
  bulge_re bulge_n gal_q gal_beta noise gal_flux
  bulge_re' bulge_n' gal_q' gal_beta' noise' gal_flux'
  (w1 w2 : world G) o1 w1' o2 w2' :
  generate_image G psf_re bulge_re bulge_n gal_q gal_beta noise gal_flux w1
    = (inr o1, w1') ->
  generate_image G psf_re bulge_re' bulge_n' gal_q' gal_beta' noise' gal_flux' w2
    = (inr o2, w2') ->
  pixels (psf o2) w2' = pixels (psf o1) w1' /\
  exists p fp,
    Moffat G psf_beta 1 psf_re = inr p /\
    drawImage_values G p image_size image_size pixel_scale = inr fp /\
    pixels (psf o1) w1' = tabulate (image_size * image_size) fp.
Proof.
  intros E1 E2.
  apply generate_image_spec in E1
    as (_ & _ & f1 & fp1 & (p1 & c1 & Hp1 & _ & Hfp1) & -> & ->).
  apply generate_image_spec in E2
    as (_ & _ & f2 & fp2 & (p2 & c2 & Hp2 & _ & Hfp2) & -> & ->).
  apply profiles_psf in Hp1, Hp2.
  rewrite Hp1 in Hp2. injection Hp2 as <-.
  rewrite Hfp1 in Hfp2. injection Hfp2 as <-.
  destruct (pixels_after G gal_q gal_beta noise w1 f1 fp1) as (_ & -> & _).
  destruct (pixels_after G gal_q' gal_beta' noise' w2 f2 fp1) as (_ & -> & _).
  split; [reflexivity|]. exists p1, fp1. repeat split; assumption.
Qed.

Lemma psf_image_bare_witness :
  exists o1 w1' o2 w2',
    generate_image point_sources 0.75 0.35 3.25 0.6 (3.14 / 2) 300 215000
      (module_init point_sources 0%Z 0%Z) = (inr o1, w1') /\
    generate_image point_sources 0.75 0.1 0.5 1 0 200 30000
      (module_init point_sources 7%Z 3%Z) = (inr o2, w2') /\
    pixels (psf o2) w2' = pixels (psf o1) w1' /\
    exists p fp,
      Moffat point_sources psf_beta 1 0.75 = inr p /\
      drawImage_values point_sources p image_size image_size pixel_scale
        = inr fp /\
      pixels (psf o1) w1' = tabulate (image_size * image_size) fp.
Proof.
  assert (E1 := point_sources_returns 0.75 0.35 3.25 0.6 (3.14 / 2) 300 215000
                  (module_init point_sources 0%Z 0%Z) ltac:(lra) ltac:(lra)).
  assert (E2 := point_sources_returns 0.75 0.1 0.5 1 0 200 30000
                  (module_init point_sources 7%Z 3%Z) ltac:(lra) ltac:(lra)).
  do 4 eexists. split; [exact E1|]. split; [exact E2|].
  exact (psf_image_bare point_sources 0.75 _ _ _ _ _ _ _ _ _ _ _ _ _ _ _ _ _ _
           E1 E2).
Defined.

(** ** Scaling of the signal-to-noise ratio *)



Lemma Rsum_squares_nonneg (xs : list R) :
  (0 <= Rsum (map (fun x => x ^ 2)%R xs))%R.
Proof.
  induction xs as [|x xs IH]; cbn [map Rsum foldr].
  - lra.
  - fold (Rsum (map (fun x => x ^ 2)%R xs)).
    pose proof (pow2_ge_0 x). lra.
Qed.




(** ** Invalid parameters *)

Section Validation.

Context (G : Library).
Context (psf_re bulge_re bulge_n gal_q gal_beta noise gal_flux : R).

Local Open Scope R_scope.

Abbreviation run_generate w :=
  (generate_image G psf_re bulge_re bulge_n gal_q gal_beta noise gal_flux w).

(** C3, as the program has it.  [generate_image] checks none of its
    parameters and raises no exception of its own making:
    - for [gal_q = -1] the division of line 40 raises [ZeroDivisionError],
      before any library call and with the state unchanged;
    - for any other [gal_q], whatever the signs of the parameters, the call
      returns as soon as the GalSim calls return and [noise] is not negative
      ([noise = 0] included);
    - an exception other than that [ZeroDivisionError] is either raised by a
      GalSim call, or is the [ValueError] of [np.random.normal] for a negative
      [noise], raised after three arrays have been computed. *)
Theorem no_parameter_validation (w : world G) :
  (gal_q = -1 -> run_generate w = (inl ZeroDivisionError, w)) /\
  (gal_q <> -1 -> ~ noise < 0 ->
   forall f fp,
     rasterized G psf_re bulge_re bulge_n gal_q gal_beta gal_flux f fp ->
     run_generate w =
       (inr (outcome_of (length (heap w)) gal_q gal_beta noise f),
        world_after G w noise f fp)) /\
  (forall e, fst (run_generate w) = inl e ->
     (e = ZeroDivisionError /\ gal_q = -1 /\ snd (run_generate w) = w) \/
     (e = ValueError /\ gal_q <> -1 /\ noise < 0 /\
      length (heap (snd (run_generate w))) = (length (heap w) + 3)%nat) \/
     (exists cls, e = GalSimError cls /\ gal_q <> -1 /\
        galsim_raises G psf_re bulge_re bulge_n gal_q gal_beta gal_flux cls)).
Proof.
  split; [|split].
  - intros ->. rewrite generate_image_eq.
    destruct (Req_dec_T (-1 + 1) 0) as [_|H]; [reflexivity|].
    exfalso. apply H. lra.
  - intros Hq Hn f fp Hr. apply generate_image_returns; [lra|assumption..].
  - intros e. rewrite generate_image_eq.
    destruct (Req_dec_T (gal_q + 1) 0) as [Hq|Hq].
    { cbn [fst snd]. intros H. injection H as <-.
      left. split; [reflexivity|]. split; [lra|reflexivity]. }
    assert (Hq' : gal_q <> -1) by lra.
    unfold galsim_raises.
    destruct (profiles G _ _ _ _ _ _) as [cls|[psf0 final]].
    { cbn [fst]. intros H. injection H as <-.
      right. right. exists cls. split; [reflexivity|]. split; [exact Hq'|].
      left. reflexivity. }
    destruct (rendering G final) as [cls|f] eqn:Hf.
    { cbn [fst]. intros H. injection H as <-.
      right. right. exists cls. split; [reflexivity|]. split; [exact Hq'|].
      right. exists psf0, final. split; [reflexivity|]. left. exact Hf. }
    cbv zeta. destruct (Rlt_dec noise 0) as [Hn|Hn].
    { cbn [fst snd heap]. intros H. injection H as <-.
      right. left. split; [reflexivity|]. split; [exact Hq'|].
      split; [exact Hn|]. rewrite length_app. reflexivity. }
    destruct (rendering G psf0) as [cls|fp] eqn:Hfp.
    { cbn [fst]. intros H. injection H as <-.
      right. right. exists cls. split; [reflexivity|]. split; [exact Hq'|].
      right. exists psf0, final. split; [reflexivity|]. right.
      exists f. split; [exact Hf|exact Hfp]. }
    cbn [fst]. intros H. discriminate H.
Qed.

End Validation.

(** [gal_q = 0] and [noise = 0] are accepted: with a library that returns, so
    does the call. *)
Lemma no_parameter_validation_witness :
  generate_image point_sources 0.75 0.35 3.25 0 (3.14 / 2) 0 215000
    (module_init point_sources 0%Z 0%Z) =
    (inr (outcome_of 0 0 (3.14 / 2) 0 (point (1 * (215000 * 1)))),
     world_after point_sources (module_init point_sources 0%Z 0%Z) 0
       (point (1 * (215000 * 1))) (point 1)).
Proof.
  exact (proj1 (proj2 (no_parameter_validation point_sources 0.75 0.35 3.25 0
                         (3.14 / 2) 0 215000
                         (module_init point_sources 0%Z 0%Z)))
           ltac:(lra) ltac:(lra) _ _
           (point_sources_rasterized 0.75 0.35 3.25 0 (3.14 / 2) 215000)).
Defined.

(** C3, as the specification has it, fails.  [gal_q = -1] is outside (0, 1],
    and the call raises [ZeroDivisionError], which is not an
    [InvalidParameterError]; [gal_q = 0] with [noise = 0] is invalid twice
    over, and the call returns an outcome when the library does. *)
Lemma invalid_parameters_not_rejected :
  (generate_image point_sources 0.75 0.35 3.25 (-1) (3.14 / 2) 300 215000
     (module_init point_sources 0%Z 0%Z) =
     (inl ZeroDivisionError, module_init point_sources 0%Z 0%Z) /\
   exn_class ZeroDivisionError <> "InvalidParameterError"%string) /\
  (exists o w',
     generate_image point_sources 0.75 0.35 3.25 0 (3.14 / 2) 0 215000
       (module_init point_sources 0%Z 0%Z) = (inr o, w')).
Proof.
  split; [split|].
  - rewrite generate_image_eq.
    destruct (Req_dec_T (-1 + 1) 0) as [_|H]; [reflexivity|].
    exfalso. apply H. lra.
  - cbn [exn_class]. intros H. discriminate H.
  - eexists. eexists. apply point_sources_returns; lra.
Qed.

(** ** Where the photon noise comes from *)

Lemma raster_head (f : nat -> R) : exists xs, raster f = f 0%nat :: xs.
Proof.
  unfold raster, tabulate.
  change (image_size * image_size)%nat with (S (63 + 63 * 64)).
  cbn [seq map]. eexists. reflexivity.
Qed.

Lemma photon_pixels_head (G : Library) (w : world G) (f : nat -> R) :
  exists ys,
    photon_pixels G w f =
      fst (poisson_pixel G (fst (BaseDeviate_default G (urandom w))) 0
             (f 0%nat)) :: ys.
Proof.
  unfold photon_pixels. destruct (raster_head f) as [xs ->].
  cbn [poisson_generate].
  destruct (poisson_pixel G _ 0 (f 0%nat)) as [y d1].
  destruct (poisson_generate G d1 0 xs) as [ys d2].
  exists ys. reflexivity.
Qed.

Lemma background_head (G : Library) (w : world G) (noise : R) :
  exists xs,
    background G w noise = fst (normal_sample G (np_random w) 0 noise) :: xs.
Proof.
  unfold background.
  change (64 * 64)%nat with (S (63 + 63 * 64)).
  cbn [normal_samples].
  destruct (normal_sample G (np_random w) 0 noise) as [x s1].
  destruct (normal_samples G (63 + 63 * 64) s1 0 noise) as [xs s2].
  exists xs. reflexivity.
Qed.

(** C6 does not hold of the program: line 56 builds the Poisson noise without
    the [rng] of line 12, so the photon noise is drawn from a deviate seeded
    from the entropy of the system.  Here are two runs of the process on the
    same parameters, with the same seeded [rng], the same NumPy state, hence
    the same background field, and the same noiseless image; the entropy of
    the system differs, and so does the noisy image. *)
Theorem photon_noise_not_reproducible :
  exists o1 w1 o2 w2,
    generate_image point_sources 0.75 0.35 3.25 0.6 (3.14 / 2) 300 215000
      (module_init point_sources 0%Z 0%Z) = (inr o1, w1) /\
    generate_image point_sources 0.75 0.35 3.25 0.6 (3.14 / 2) 300 215000
      (module_init point_sources 1%Z 0%Z) = (inr o2, w2) /\
    rng (module_init point_sources 0%Z 0%Z) =
      rng (module_init point_sources 1%Z 0%Z) /\
    background point_sources (module_init point_sources 0%Z 0%Z) 300 =
      background point_sources (module_init point_sources 1%Z 0%Z) 300 /\
    pixels (noiseless o1) w1 = pixels (noiseless o2) w2 /\
    pixels (noised o1) w1 <> pixels (noised o2) w2.
Proof.
  assert (E1 := point_sources_returns 0.75 0.35 3.25 0.6 (3.14 / 2) 300 215000
                  (module_init point_sources 0%Z 0%Z) ltac:(lra) ltac:(lra)).
  assert (E2 := point_sources_returns 0.75 0.35 3.25 0.6 (3.14 / 2) 300 215000
                  (module_init point_sources 1%Z 0%Z) ltac:(lra) ltac:(lra)).
  do 4 eexists. split; [exact E1|]. split; [exact E2|].
  split; [reflexivity|]. split; [reflexivity|].
  destruct (pixels_after point_sources 0.6 (3.14 / 2) 300
              (module_init point_sources 0%Z 0%Z)
              (point (1 * (215000 * 1))) (point 1)) as (-> & _ & -> & _).
  destruct (pixels_after point_sources 0.6 (3.14 / 2) 300
              (module_init point_sources 1%Z 0%Z)
              (point (1 * (215000 * 1))) (point 1)) as (-> & _ & -> & _).
  split; [reflexivity|].
  destruct (photon_pixels_head point_sources (module_init point_sources 0%Z 0%Z)
              (point (1 * (215000 * 1)))) as [ys1 ->].
  destruct (photon_pixels_head point_sources (module_init point_sources 1%Z 0%Z)
              (point (1 * (215000 * 1)))) as [ys2 ->].
  destruct (background_head point_sources (module_init point_sources 0%Z 0%Z)
              300) as [xs1 ->].
  destruct (background_head point_sources (module_init point_sources 1%Z 0%Z)
              300) as [xs2 ->].
  cbn [zip_with]. intros H. injection H as H _.
  cbn [poisson_pixel normal_sample BaseDeviate_default point_sources
       module_init urandom np_random fst point] in H.
  lra.
Qed.

(** ** The shape of the returned images *)

Lemma length_poisson_generate (G : Library) (d : BaseDeviate G) sky_level xs :
  length (fst (poisson_generate G d sky_level xs)) = length xs.
Proof.
  revert d. induction xs as [|x xs IH]; intros d; cbn [poisson_generate].
  - reflexivity.
  - destruct (poisson_pixel G d sky_level x) as [y d1].
    specialize (IH d1).
    destruct (poisson_generate G d1 sky_level xs) as [ys d2].
    cbn [fst length] in *. rewrite IH. reflexivity.
Qed.

Lemma length_normal_samples (G : Library) n (s : RandomState G) loc sigma :
  length (fst (normal_samples G n s loc sigma)) = n.
Proof.
  revert s. induction n as [|n IH]; intros s; cbn [normal_samples].
  - reflexivity.
  - destruct (normal_sample G s loc sigma) as [x s1].
    specialize (IH s1).
    destruct (normal_samples G n s1 loc sigma) as [xs s2].
    cbn [fst length] in *. rewrite IH. reflexivity.
Qed.

Lemma length_raster (f : nat -> R) : length (raster f) = (64 * 64)%nat.
Proof. unfold raster, tabulate. rewrite length_map, length_seq. reflexivity. Qed.

(** X2.  The three arrays a call returns have shape (64, 64), and each holds
    64 * 64 pixels. *)
Theorem images_shape (G : Library)
  psf_re bulge_re bulge_n gal_q gal_beta noise gal_flux (w : world G) o w' :
  generate_image G psf_re bulge_re bulge_n gal_q gal_beta noise gal_flux w
    = (inr o, w') ->
  (shape (noiseless o) = [64; 64] /\
   length (pixels (noiseless o) w') = 64 * 64) /\
  (shape (noised o) = [64; 64] /\
   length (pixels (noised o) w') = 64 * 64) /\
  (shape (psf o) = [64; 64] /\
   length (pixels (psf o) w') = 64 * 64).
Proof.
  intros E.
  apply generate_image_spec in E as (_ & _ & f & fp & _ & -> & ->).
  destruct (pixels_after G gal_q gal_beta noise w f fp) as (-> & -> & -> & _).
  rewrite length_zip_with. unfold photon_pixels, background.
  rewrite length_poisson_generate, length_normal_samples, !length_raster.
  rewrite Nat.min_id. repeat split.
Qed.

Lemma images_shape_witness :
  exists o w',
    generate_image point_sources 0.75 0.35 3.25 0.6 (3.14 / 2) 300 215000
      (module_init point_sources 0%Z 0%Z) = (inr o, w') /\
    (shape (noiseless o) = [64; 64] /\
     length (pixels (noiseless o) w') = 64 * 64) /\
    (shape (noised o) = [64; 64] /\
     length (pixels (noised o) w') = 64 * 64) /\
    (shape (psf o) = [64; 64] /\
     length (pixels (psf o) w') = 64 * 64).
Proof.
  assert (E := point_sources_returns 0.75 0.35 3.25 0.6 (3.14 / 2) 300 215000
                 (module_init point_sources 0%Z 0%Z) ltac:(lra) ltac:(lra)).
  eexists. eexists. split; [exact E|].
  exact (images_shape point_sources _ _ _ _ _ _ _ _ _ _ E).
Defined.

(** ** How a call ends, and what it does to the store *)

Section Calls.

Context (G : Library).
Context (psf_re bulge_re bulge_n gal_q gal_beta noise gal_flux : R).

Local Open Scope R_scope.

Abbreviation run_generate w :=
  (generate_image G psf_re bulge_re bulge_n gal_q gal_beta noise gal_flux w).

Abbreviation the_profiles :=
  (profiles G psf_re bulge_re bulge_n gal_q gal_beta gal_flux).

(** The buffers a call appends to the store. *)
Lemma generate_image_appends (w : world G) :
  exists ext,
    heap (snd (run_generate w)) = heap w ++ ext /\
    (forall o, fst (run_generate w) = inr o -> length ext = 6%nat).
Proof.
  rewrite generate_image_eq.
  destruct (Req_dec_T (gal_q + 1) 0).
  { exists []. cbn [fst snd]. rewrite app_nil_r.
    split; [reflexivity|]. intros o H. discriminate H. }
  destruct the_profiles as [cls|[psf0 final]].
  { exists []. cbn [fst snd]. rewrite app_nil_r.
    split; [reflexivity|]. intros o H. discriminate H. }
  destruct (rendering G final) as [cls|f].
  { eexists. cbn [fst snd heap set_heap].
    split; [reflexivity|]. intros o H. discriminate H. }
  cbv zeta. destruct (Rlt_dec noise 0).
  { eexists. cbn [fst snd heap].
    split; [reflexivity|]. intros o H. discriminate H. }
  destruct (rendering G psf0) as [cls|fp].
  { eexists. cbn [fst snd heap].
    split; [reflexivity|]. intros o H. discriminate H. }
  eexists. cbn [fst snd heap world_after]. split; reflexivity.
Qed.

(** X3.  A call only appends to the store of arrays: whether it returns or
    raises, every buffer that existed before the call holds the same pixels
    after it, and a call that returns has allocated exactly six buffers (the
    image it renders into, the three arrays it returns, the squares of line
    54 and the 1-D noise map of line 57). *)
Theorem store_only_grows (w : world G) :
  (forall b xs, heap w !! b = Some xs ->
                heap (snd (run_generate w)) !! b = Some xs) /\
  (forall o, fst (run_generate w) = inr o ->
             length (heap (snd (run_generate w))) = (length (heap w) + 6)%nat).
Proof.
  destruct (generate_image_appends w) as (ext & -> & Hlen).
  split.
  - intros b xs H. apply lookup_app_l_Some. exact H.
  - intros o H. rewrite length_app, (Hlen o H). reflexivity.
Qed.

(** X4.  Which way a call ends is decided in this order: the division of
    line 40 raises exactly when [gal_q = -1]; otherwise a GalSim exception is
    raised when a profile constructor or the rendering of the convolved
    profile raises it, or, with a noise level that is not negative, when the
    rendering of the PSF does; [ValueError] is raised exactly when [noise] is
    negative and the convolved profile has been rendered; the call returns
    exactly when every library call returns and [noise] is not negative. *)
Theorem call_outcome_decided (w : world G) :
  (fst (run_generate w) = inl ZeroDivisionError <-> gal_q = -1) /\
  (forall cls, fst (run_generate w) = inl (GalSimError cls) <->
     gal_q <> -1 /\
     (the_profiles = inl cls \/
      exists p final, the_profiles = inr (p, final) /\
        (rendering G final = inl cls \/
         exists f, rendering G final = inr f /\ ~ noise < 0 /\
                   rendering G p = inl cls))) /\
  (fst (run_generate w) = inl ValueError <->
     gal_q <> -1 /\ noise < 0 /\
     exists p final f,
       the_profiles = inr (p, final) /\ rendering G final = inr f) /\
  ((exists o, fst (run_generate w) = inr o) <->
     gal_q <> -1 /\ ~ noise < 0 /\
     exists f fp,
       rasterized G psf_re bulge_re bulge_n gal_q gal_beta gal_flux f fp).
Proof.
  unfold rasterized. rewrite generate_image_eq.
  destruct (Req_dec_T (gal_q + 1) 0) as [Hq|Hq].
  { cbn [fst]. split; [|split; [|split]].
    - split; intros _; [lra|reflexivity].
    - intros cls. split; [intros H; discriminate H|intros [H _]; lra].
    - split; [intros H; discriminate H|intros [H _]; lra].
    - split; [intros [o H]; discriminate H|intros [H _]; lra]. }
  assert (Hq' : gal_q <> -1) by lra.
  destruct the_profiles as [cls|[psf0 final]].
  { cbn [fst]. split; [|split; [|split]].
    - split; [intros H; discriminate H|intros H; lra].
    - intros cls'. split.
      + intros H. injection H as ->. split; [exact Hq'|]. left. reflexivity.
      + intros (_ & [H|(p & c & H & _)]); [|discriminate H].
        injection H as ->. reflexivity.
    - split; [intros H; discriminate H|].
      intros (_ & _ & p & c & f & H & _). discriminate H.
    - split; [intros [o H]; discriminate H|].
      intros (_ & _ & f & fp & p & c & H & _). discriminate H. }
  destruct (rendering G final) as [cls|f] eqn:Hf.
  { cbn [fst]. split; [|split; [|split]].
    - split; [intros H; discriminate H|intros H; lra].
    - intros cls'. split.
      + intros H. injection H as ->. split; [exact Hq'|]. right.
        exists psf0, final. split; [reflexivity|]. left. exact Hf.
      + intros (_ & [H|(p & c & H & H')]); [discriminate H|].
        injection H as <- <-. destruct H' as [H'|(f & H' & _)].
        * rewrite Hf in H'. injection H' as ->. reflexivity.
        * rewrite Hf in H'. discriminate H'.
    - split; [intros H; discriminate H|].
      intros (_ & _ & p & c & f & H & H'). injection H as <- <-.
      rewrite Hf in H'. discriminate H'.
    - split; [intros [o H]; discriminate H|].
      intros (_ & _ & f & fp & p & c & H & H' & _). injection H as <- <-.
      rewrite Hf in H'. discriminate H'. }
  cbv zeta. destruct (Rlt_dec noise 0) as [Hn|Hn].
  { cbn [fst]. split; [|split; [|split]].
    - split; [intros H; discriminate H|intros H; lra].
    - intros cls'. split; [intros H; discriminate H|].
      intros (_ & [H|(p & c & H & H')]); [discriminate H|].
      injection H as <- <-. destruct H' as [H'|(f' & _ & H' & _)].
      * rewrite Hf in H'. discriminate H'.
      * contradiction.
    - split; [|reflexivity]. intros _. split; [exact Hq'|].
      split; [exact Hn|]. exists psf0, final, f. split; [reflexivity|exact Hf].
    - split; [intros [o H]; discriminate H|].
      intros (_ & H & _). contradiction. }
  destruct (rendering G psf0) as [cls|fp] eqn:Hfp.
  { cbn [fst]. split; [|split; [|split]].
    - split; [intros H; discriminate H|intros H; lra].
    - intros cls'. split.
      + intros H. injection H as ->. split; [exact Hq'|]. right.
        exists psf0, final. split; [reflexivity|]. right.
        exists f. split; [exact Hf|]. split; [exact Hn|exact Hfp].
      + intros (_ & [H|(p & c & H & H')]); [discriminate H|].
        injection H as <- <-. destruct H' as [H'|(f' & _ & _ & H')].
        * rewrite Hf in H'. discriminate H'.
        * rewrite Hfp in H'. injection H' as ->. reflexivity.
    - split; [intros H; discriminate H|].
      intros (_ & H & _). contradiction.
    - split; [intros [o H]; discriminate H|].
      intros (_ & _ & f' & fp' & p & c & H & _ & H'). injection H as <- <-.
      rewrite Hfp in H'. discriminate H'. }
  cbn [fst]. split; [|split; [|split]].
  - split; [intros H; discriminate H|intros H; lra].
  - intros cls'. split; [intros H; discriminate H|].
    intros (_ & [H|(p & c & H & H')]); [discriminate H|].
    injection H as <- <-. destruct H' as [H'|(f' & _ & _ & H')].
    + rewrite Hf in H'. discriminate H'.
    + rewrite Hfp in H'. discriminate H'.
  - split; [intros H; discriminate H|].
    intros (_ & H & _). contradiction.
  - split; [|intros _; eexists; reflexivity].
    intros _. split; [exact Hq'|]. split; [exact Hn|].
    exists f, fp, psf0, final. split; [reflexivity|]. split; assumption.
Qed.

End Calls.

(** ** Successive calls *)

Lemma pixels_frame (G : Library) (a : ndarray) (w w' : world G) xs ext :
  heap w !! base a = Some xs -> heap w' = heap w ++ ext ->
  pixels a w' = pixels a w.
Proof.
  intros H E. unfold pixels. rewrite E, (lookup_app_l_Some _ _ _ _ H), H.
  reflexivity.
Qed.

Lemma normal_samples_app (G : Library) n m (s : RandomState G) loc sigma :
  normal_samples G (n + m) s loc sigma =
    (fst (normal_samples G n s loc sigma) ++
     fst (normal_samples G m (snd (normal_samples G n s loc sigma)) loc sigma),
     snd (normal_samples G m (snd (normal_samples G n s loc sigma)) loc sigma)).
Proof.
  revert s. induction n as [|n IH]; intros s.
  - cbn [Nat.add normal_samples fst snd app].
    destruct (normal_samples G m s loc sigma). reflexivity.
  - cbn [Nat.add normal_samples].
    destruct (normal_sample G s loc sigma) as [x s1].
    rewrite (IH s1).
    destruct (normal_samples G n s1 loc sigma) as [xs s2].
    cbn [fst snd app]. reflexivity.
Qed.

(** X5.  The arrays a call has returned are left alone by a later call,
    whatever its parameters and whether it returns or raises: they hold the
    same pixels after it. *)
Theorem earlier_images_survive (G : Library)
  psf_re bulge_re bulge_n gal_q gal_beta noise gal_flux
  psf_re' bulge_re' bulge_n' gal_q' gal_beta' noise' gal_flux'
  (w : world G) o w1 :
  generate_image G psf_re bulge_re bulge_n gal_q gal_beta noise gal_flux w
    = (inr o, w1) ->
  pixels (noiseless o)
    (snd (generate_image G psf_re' bulge_re' bulge_n' gal_q' gal_beta' noise'
            gal_flux' w1)) = pixels (noiseless o) w1 /\
  pixels (noised o)
    (snd (generate_image G psf_re' bulge_re' bulge_n' gal_q' gal_beta' noise'
            gal_flux' w1)) = pixels (noised o) w1 /\
  pixels (psf o)
    (snd (generate_image G psf_re' bulge_re' bulge_n' gal_q' gal_beta' noise'
            gal_flux' w1)) = pixels (psf o) w1.
Proof.
  intros E.
  apply generate_image_spec in E as (_ & _ & f & fp & _ & -> & ->).
  destruct (generate_image_appends G psf_re' bulge_re' bulge_n' gal_q' gal_beta'
              noise' gal_flux' (world_after G w noise f fp)) as (ext & Hext & _).
  split; [|split].
  - eapply pixels_frame; [|exact Hext].
    cbn [noiseless base outcome_of world_after heap].
    rewrite lookup_alloc. reflexivity.
  - eapply pixels_frame; [|exact Hext].
    cbn [noised base outcome_of world_after heap].
    rewrite lookup_alloc. reflexivity.
  - eapply pixels_frame; [|exact Hext].
    cbn [psf base outcome_of world_after heap].
    rewrite lookup_alloc. reflexivity.
Qed.

Lemma earlier_images_survive_witness :
  exists o w1,
    generate_image point_sources 0.75 0.35 3.25 0.6 (3.14 / 2) 300 215000
      (module_init point_sources 0%Z 0%Z) = (inr o, w1) /\
    pixels (noiseless o)
      (snd (generate_image point_sources 1 0.1 0.5 1 0 (-1) 30000 w1))
      = pixels (noiseless o) w1 /\
    pixels (noised o)
      (snd (generate_image point_sources 1 0.1 0.5 1 0 (-1) 30000 w1))
      = pixels (noised o) w1 /\
    pixels (psf o)
      (snd (generate_image point_sources 1 0.1 0.5 1 0 (-1) 30000 w1))
      = pixels (psf o) w1.
Proof.
  assert (E := point_sources_returns 0.75 0.35 3.25 0.6 (3.14 / 2) 300 215000
                 (module_init point_sources 0%Z 0%Z) ltac:(lra) ltac:(lra)).
  eexists. eexists. split; [exact E|].
  exact (earlier_images_survive point_sources _ _ _ _ _ _ _
           1 0.1 0.5 1 0 (-1) 30000 _ _ _ E).
Defined.

(** X6.  Two calls in a row with the same noise level draw their background
    fields one after the other from NumPy's global stream: together the two
    fields are the first 2 * 64 * 64 samples of the state the first call
    started from; and the second call seeds its Poisson deviate from the
    entropy the first one left. *)
Theorem backgrounds_consecutive (G : Library)
  psf_re bulge_re bulge_n gal_q gal_beta noise gal_flux
  psf_re' bulge_re' bulge_n' gal_q' gal_beta' gal_flux'
  (w : world G) o1 w1 o2 w2 :
  generate_image G psf_re bulge_re bulge_n gal_q gal_beta noise gal_flux w
    = (inr o1, w1) ->
  generate_image G psf_re' bulge_re' bulge_n' gal_q' gal_beta' noise gal_flux' w1
    = (inr o2, w2) ->
  exists f1 f2 bkgr1 bkgr2,
    pixels (noised o1) w1 = zip_with Rplus (photon_pixels G w f1) bkgr1 /\
    pixels (noised o2) w2 = zip_with Rplus (photon_pixels G w1 f2) bkgr2 /\
    bkgr1 ++ bkgr2 =
      fst (normal_samples G (64 * 64 + 64 * 64) (np_random w) 0 noise) /\
    np_random w2 =
      snd (normal_samples G (64 * 64 + 64 * 64) (np_random w) 0 noise) /\
    urandom w1 = snd (BaseDeviate_default G (urandom w)) /\
    urandom w2 = snd (BaseDeviate_default G (urandom w1)).
Proof.
  intros E1 E2.
  apply generate_image_spec in E1 as (_ & _ & f1 & fp1 & _ & -> & ->).
  apply generate_image_spec in E2 as (_ & _ & f2 & fp2 & _ & -> & ->).
  exists f1, f2, (background G w noise),
    (background G (world_after G w noise f1 fp1) noise).
  destruct (pixels_after G gal_q gal_beta noise w f1 fp1) as (_ & _ & -> & _).
  destruct (pixels_after G gal_q' gal_beta' noise (world_after G w noise f1 fp1)
              f2 fp2) as (_ & _ & -> & _).
  rewrite normal_samples_app.
  unfold background. cbn [np_random urandom world_after fst snd].
  repeat (split; [reflexivity|]). reflexivity.
Qed.

Lemma backgrounds_consecutive_witness :
  exists o1 w1 o2 w2 f1 f2 bkgr1 bkgr2,
    generate_image point_sources 0.75 0.35 3.25 0.6 (3.14 / 2) 300 215000
      (module_init point_sources 0%Z 0%Z) = (inr o1, w1) /\
    generate_image point_sources 1 0.1 0.5 1 0 300 30000 w1 = (inr o2, w2) /\
    pixels (noised o1) w1 =
      zip_with Rplus
        (photon_pixels point_sources (module_init point_sources 0%Z 0%Z) f1)
        bkgr1 /\
    pixels (noised o2) w2 =
      zip_with Rplus (photon_pixels point_sources w1 f2) bkgr2 /\
    bkgr1 ++ bkgr2 =
      fst (normal_samples point_sources (64 * 64 + 64 * 64)
             (np_random (module_init point_sources 0%Z 0%Z)) 0 300) /\
    np_random w2 =
      snd (normal_samples point_sources (64 * 64 + 64 * 64)
             (np_random (module_init point_sources 0%Z 0%Z)) 0 300) /\
    urandom w1 =
      snd (BaseDeviate_default point_sources
             (urandom (module_init point_sources 0%Z 0%Z))) /\
    urandom w2 = snd (BaseDeviate_default point_sources (urandom w1)).
Proof.
  assert (E1 := point_sources_returns 0.75 0.35 3.25 0.6 (3.14 / 2) 300 215000
                  (module_init point_sources 0%Z 0%Z) ltac:(lra) ltac:(lra)).
  assert (E2 := point_sources_returns 1 0.1 0.5 1 0 300 30000
                  (world_after point_sources (module_init point_sources 0%Z 0%Z)
                     300 (point (1 * (215000 * 1))) (point 1))
                  ltac:(lra) ltac:(lra)).
  destruct (backgrounds_consecutive point_sources _ _ _ _ _ _ _ _ _ _ _ _ _ _
              _ _ _ _ E1 E2) as (f1 & f2 & b1 & b2 & H).
  do 4 eexists. exists f1, f2, b1, b2.
  split; [exact E1|]. split; [exact E2|]. exact H.
Defined.

(** ** More on the shear *)

Section ShearAlgebra.

Context (G : Library).
Context (psf_re bulge_re bulge_n gal_q gal_beta noise gal_flux : R).

Local Open Scope R_scope.

(** X7.  The returned shear has period pi in the position angle, and a
    quarter turn reverses it: a call with [gal_beta + PI] returns the same
    [g1] and [g2], a call with [gal_beta + PI / 2] returns their opposites. *)
Theorem shear_orientation (w w2 w3 : world G) o w' o2 w2' o3 w3' :
  generate_image G psf_re bulge_re bulge_n gal_q gal_beta noise gal_flux w
    = (inr o, w') ->
  generate_image G psf_re bulge_re bulge_n gal_q (gal_beta + PI) noise
    gal_flux w2 = (inr o2, w2') ->
  generate_image G psf_re bulge_re bulge_n gal_q (gal_beta + PI / 2) noise
    gal_flux w3 = (inr o3, w3') ->
  (g1 o2 = g1 o /\ g2 o2 = g2 o) /\
  (g1 o3 = - g1 o /\ g2 o3 = - g2 o).
Proof.
  intros E E2 E3.
  apply generate_image_spec in E as (_ & _ & f & fp & _ & -> & _).
  apply generate_image_spec in E2 as (_ & _ & f2 & fp2 & _ & -> & _).
  apply generate_image_spec in E3 as (_ & _ & f3 & fp3 & _ & -> & _).
  cbn [g1 g2 outcome_of].
  replace (2 * (gal_beta + PI)) with (2 * gal_beta + PI + PI) by ring.
  replace (2 * (gal_beta + PI / 2)) with (2 * gal_beta + PI) by field.
  rewrite !neg_cos, !neg_sin.
  split; split; ring.
Qed.

(** X8.  Whether the returned shear is one GalSim accepts is decided by the
    sign of the axis ratio: for every call that returns, [g1^2 + g2^2] is the
    square of [(1 - gal_q) / (gal_q + 1)], and it is below 1 exactly when
    [gal_q > 0], equal to 1 exactly when [gal_q = 0], and above 1 exactly
    when [gal_q < 0]. *)
Theorem shear_norm (w : world G) o w' :
  generate_image G psf_re bulge_re bulge_n gal_q gal_beta noise gal_flux w
    = (inr o, w') ->
  g1 o ^ 2 + g2 o ^ 2 = ((1 - gal_q) / (gal_q + 1)) ^ 2 /\
  (g1 o ^ 2 + g2 o ^ 2 < 1 <-> 0 < gal_q) /\
  (g1 o ^ 2 + g2 o ^ 2 = 1 <-> gal_q = 0) /\
  (1 < g1 o ^ 2 + g2 o ^ 2 <-> gal_q < 0).
Proof.
  intros E.
  apply generate_image_spec in E as (Hq & _ & f & fp & _ & -> & _).
  cbn [g1 g2 outcome_of]. unfold shear_magnitude.
  set (A := (1 - gal_q) / (gal_q + 1)).
  assert (HA : (A * cos (2 * gal_beta)) ^ 2 + (A * sin (2 * gal_beta)) ^ 2
               = A ^ 2).
  { pose proof (sin2_cos2 (2 * gal_beta)) as H. unfold Rsqr in H.
    replace ((A * cos (2 * gal_beta)) ^ 2 + (A * sin (2 * gal_beta)) ^ 2)
      with (A ^ 2 * (sin (2 * gal_beta) * sin (2 * gal_beta) +
                     cos (2 * gal_beta) * cos (2 * gal_beta))) by ring.
    rewrite H. ring. }
  rewrite HA. split; [reflexivity|].
  set (t := / ((gal_q + 1) * (gal_q + 1))).
  assert (Ht : 0 < t).
  { unfold t. apply Rinv_0_lt_compat.
    destruct (Rtotal_order (gal_q + 1) 0) as [H|[H|H]]; [nra|contradiction|nra]. }
  assert (HA2 : A ^ 2 = 1 - 4 * gal_q * t).
  { unfold A, t. field. exact Hq. }
  rewrite HA2. split; [|split]; split; intros H; nra.
Qed.

(** X9.  Inverting the axis ratio reverses the shear: for [gal_q] other than
    0, a call with [1 / gal_q] returns the opposites of [g1] and [g2]. *)
Theorem shear_inverse_ratio (w w2 : world G) o w' o2 w2' :
  gal_q <> 0 ->
  generate_image G psf_re bulge_re bulge_n gal_q gal_beta noise gal_flux w
    = (inr o, w') ->
  generate_image G psf_re bulge_re bulge_n (1 / gal_q) gal_beta noise
    gal_flux w2 = (inr o2, w2') ->
  g1 o2 = - g1 o /\ g2 o2 = - g2 o.
Proof.
  intros H0 E E2.
  apply generate_image_spec in E as (Hq & _ & f & fp & _ & -> & _).
  apply generate_image_spec in E2 as (Hq2 & _ & f2 & fp2 & _ & -> & _).
  cbn [g1 g2 outcome_of]. unfold shear_magnitude.
  assert (HA : (1 - 1 / gal_q) / (1 / gal_q + 1)
               = - ((1 - gal_q) / (gal_q + 1))).
  { field. split; [exact Hq|exact H0]. }
  rewrite HA. split; ring.
Qed.

End ShearAlgebra.

Lemma shear_orientation_witness :
  exists o w' o2 w2' o3 w3',
    generate_image point_sources 0.75 0.35 3.25 0.6 (3.14 / 2) 300 215000
      (module_init point_sources 0%Z 0%Z) = (inr o, w') /\
    generate_image point_sources 0.75 0.35 3.25 0.6 (3.14 / 2 + PI) 300 215000
      (module_init point_sources 0%Z 0%Z) = (inr o2, w2') /\
    generate_image point_sources 0.75 0.35 3.25 0.6 (3.14 / 2 + PI / 2) 300
      215000 (module_init point_sources 0%Z 0%Z) = (inr o3, w3') /\
    ((g1 o2 = g1 o /\ g2 o2 = g2 o) /\
     (g1 o3 = - g1 o /\ g2 o3 = - g2 o))%R.
Proof.
  assert (E := point_sources_returns 0.75 0.35 3.25 0.6 (3.14 / 2) 300 215000
                 (module_init point_sources 0%Z 0%Z) ltac:(lra) ltac:(lra)).
  assert (E2 := point_sources_returns 0.75 0.35 3.25 0.6 (3.14 / 2 + PI) 300
                  215000 (module_init point_sources 0%Z 0%Z)
                  ltac:(lra) ltac:(lra)).
  assert (E3 := point_sources_returns 0.75 0.35 3.25 0.6 (3.14 / 2 + PI / 2)
                  300 215000 (module_init point_sources 0%Z 0%Z)
                  ltac:(lra) ltac:(lra)).
  do 6 eexists. split; [exact E|]. split; [exact E2|]. split; [exact E3|].
  exact (shear_orientation point_sources _ _ _ _ _ _ _ _ _ _ _ _ _ _ _ _
           E E2 E3).
Defined.

Lemma shear_norm_witness :
  exists o w',
    generate_image point_sources 0.75 0.35 3.25 0.6 (3.14 / 2) 300 215000
      (module_init point_sources 0%Z 0%Z) = (inr o, w') /\
    (g1 o ^ 2 + g2 o ^ 2 = ((1 - 0.6) / (0.6 + 1)) ^ 2 /\
     (g1 o ^ 2 + g2 o ^ 2 < 1 <-> 0 < 0.6) /\
     (g1 o ^ 2 + g2 o ^ 2 = 1 <-> 0.6 = 0) /\
     (1 < g1 o ^ 2 + g2 o ^ 2 <-> 0.6 < 0))%R.
Proof.
  assert (E := point_sources_returns 0.75 0.35 3.25 0.6 (3.14 / 2) 300 215000
                 (module_init point_sources 0%Z 0%Z) ltac:(lra) ltac:(lra)).
  eexists. eexists. split; [exact E|].
  exact (shear_norm point_sources _ _ _ _ _ _ _ _ _ _ E).
Defined.

Lemma shear_inverse_ratio_witness :
  exists o w' o2 w2',
    generate_image point_sources 0.75 0.35 3.25 2 (3.14 / 2) 300 215000
      (module_init point_sources 0%Z 0%Z) = (inr o, w') /\
    generate_image point_sources 0.75 0.35 3.25 (1 / 2) (3.14 / 2) 300 215000
      (module_init point_sources 0%Z 0%Z) = (inr o2, w2') /\
    (g1 o2 = - g1 o /\ g2 o2 = - g2 o)%R.
Proof.
  assert (E := point_sources_returns 0.75 0.35 3.25 2 (3.14 / 2) 300 215000
                 (module_init point_sources 0%Z 0%Z) ltac:(lra) ltac:(lra)).
  assert (E2 := point_sources_returns 0.75 0.35 3.25 (1 / 2) (3.14 / 2) 300
                  215000 (module_init point_sources 0%Z 0%Z)
                  ltac:(lra) ltac:(lra)).
  do 4 eexists. split; [exact E|]. split; [exact E2|].
  exact (shear_inverse_ratio point_sources 0.75 0.35 3.25 2 (3.14 / 2) 300
           215000 _ _ _ _ _ _ ltac:(lra) E E2).
Defined.

(** ** The sign of the signal-to-noise ratio *)

Lemma Rsum_squares_zero (xs : list R) :
  Rsum (map (fun x => x ^ 2)%R xs) = 0%R <-> Forall (fun x => x = 0%R) xs.
Proof.
  induction xs as [|x xs IH]; cbn [map Rsum foldr].
  - split; [intros _; constructor|reflexivity].
  - fold (Rsum (map (fun x => x ^ 2)%R xs)).
    pose proof (pow2_ge_0 x) as Hx.
    pose proof (Rsum_squares_nonneg xs) as Hs.
    rewrite Forall_cons, <- IH. split.
    + intros H. split; [nra|lra].
    + intros [-> ->]. ring.
Qed.

(** X10.  For a positive noise level the returned [snr] is not negative, and
    it is 0 exactly when every pixel of the returned noiseless image is 0. *)
Theorem snr_sign (G : Library)
  psf_re bulge_re bulge_n gal_q gal_beta noise gal_flux (w : world G) o w' :
  (0 < noise)%R ->
  generate_image G psf_re bulge_re bulge_n gal_q gal_beta noise gal_flux w
    = (inr o, w') ->
  (0 <= snr o)%R /\
  (snr o = 0%R <-> Forall (fun x => x = 0%R) (pixels (noiseless o) w')).
Proof.
  intros Hn E.
  apply generate_image_spec in E as (_ & _ & f & fp & _ & -> & ->).
  destruct (pixels_after G gal_q gal_beta noise w f fp) as (-> & _).
  cbn [snr outcome_of].
  pose proof (Rsum_squares_nonneg (raster f)) as Hs.
  pose proof (sqrt_pos (Rsum (map (fun x => x ^ 2)%R (raster f)))) as Hr.
  assert (Hi : (0 < / noise)%R) by (apply Rinv_0_lt_compat; exact Hn).
  unfold Rdiv. split; [nra|].
  rewrite <- Rsum_squares_zero. split.
  - intros H. apply sqrt_eq_0; [exact Hs|]. nra.
  - intros ->. rewrite sqrt_0. ring.
Qed.

Lemma snr_sign_witness :
  exists o w',
    generate_image point_sources 0.75 0.35 3.25 0.6 (3.14 / 2) 300 215000
      (module_init point_sources 0%Z 0%Z) = (inr o, w') /\
    (0 <= snr o)%R /\
    (snr o = 0%R <-> Forall (fun x => x = 0%R) (pixels (noiseless o) w')).
Proof.
  assert (E := point_sources_returns 0.75 0.35 3.25 0.6 (3.14 / 2) 300 215000
                 (module_init point_sources 0%Z 0%Z) ltac:(lra) ltac:(lra)).
  eexists. eexists. split; [exact E|].
  exact (snr_sign point_sources 0.75 0.35 3.25 0.6 (3.14 / 2) 300 215000
           _ _ _ ltac:(lra) E).
Defined.

(** ** The call of [main] *)

Section MainCall.

Context (G : Library).
Context (slider : string -> R -> R -> R -> R -> R).

Local Open Scope R_scope.

Ltac lookup_setting :=
  unfold settings, params;
  cbn [foldl param.name param.min param.max param.default param.step];
  rewrite ?lookup_insert_ne by done; apply lookup_insert_eq.

Lemma settings_psf_re :
  settings slider !! "psf_re"%string =
    Some (slider "PSF moffat scale radius (in arcsec)" 0.5 1.0 0.75 0.05).
Proof. lookup_setting. Qed.

Lemma settings_bulge_re :
  settings slider !! "bulge_re"%string =
    Some (slider "Sersic radius (in arcsec)" 0.1 0.6 0.35 0.05).
Proof. lookup_setting. Qed.

Lemma settings_bulge_n :
  settings slider !! "bulge_n"%string =
    Some (slider "Sersic index" 0.5 6.0 3.25 0.25).
Proof. lookup_setting. Qed.

Lemma settings_gal_q :
  settings slider !! "gal_q"%string =
    Some (slider "Ellipticity" 0.1976 1.0 0.6 0.1).
Proof. lookup_setting. Qed.

Lemma settings_gal_beta :
  settings slider !! "gal_beta"%string =
    Some (slider "Orientation (in radians)" 0.0 3.14 (3.14 / 2) 0.1).
Proof. lookup_setting. Qed.

Lemma settings_noise :
  settings slider !! "noise"%string =
    Some (slider "Noise level" 200 400 300 10).
Proof. lookup_setting. Qed.

Lemma settings_gal_flux :
  settings slider !! "gal_flux"%string =
    Some (slider "Flux" (0.3 * 1e5) (4.0 * 1e5) (2.15 * 1e5) (0.1 * 1e5)).
Proof. lookup_setting. Qed.

Lemma settings_dom :
  dom (settings slider) = list_to_set generate_image_signature.
Proof.
  unfold settings, params, generate_image_signature.
  cbn [foldl param.name param.min param.max param.default param.step].
  rewrite !dom_insert_L, dom_empty_L. cbn [list_to_set]. set_solver.
Qed.

(** X11.  The keyword call of line 116 always fits the signature of
    [generate_image]: the loop over [params] binds each of the seven
    parameters once, so no [TypeError] is raised, and each parameter receives
    the value of the slider whose entry names it ("Ellipticity" feeds
    [gal_q], "Noise level" feeds [noise], and so on). *)
Theorem main_binds_sliders (w : world G) :
  main_outcome G slider w =
    match
      generate_image G
        (slider "PSF moffat scale radius (in arcsec)" 0.5 1.0 0.75 0.05)
        (slider "Sersic radius (in arcsec)" 0.1 0.6 0.35 0.05)
        (slider "Sersic index" 0.5 6.0 3.25 0.25)
        (slider "Ellipticity" 0.1976 1.0 0.6 0.1)
        (slider "Orientation (in radians)" 0.0 3.14 (3.14 / 2) 0.1)
        (slider "Noise level" 200 400 300 10)
        (slider "Flux" (0.3 * 1e5) (4.0 * 1e5) (2.15 * 1e5) (0.1 * 1e5))
        w
    with
    | (inl e, w') => (inl (Raised e), w')
    | (inr o, w') => (inr o, w')
    end.
Proof.
  unfold main_outcome, generate_image_kwargs.
  rewrite settings_psf_re, settings_bulge_re, settings_bulge_n, settings_gal_q,
    settings_gal_beta, settings_noise, settings_gal_flux.
  rewrite decide_True by (rewrite settings_dom; reflexivity).
  reflexivity.
Qed.

End MainCall.

(** ** The sliders keep the call within bounds *)

Lemma generate_image_guarded (G : Library)
  psf_re bulge_re bulge_n gal_q gal_beta noise gal_flux (w : world G) e :
  (gal_q + 1 <> 0)%R -> ~ (noise < 0)%R ->
  fst (generate_image G psf_re bulge_re bulge_n gal_q gal_beta noise gal_flux w)
    = inl e ->
  exists cls, e = GalSimError cls.
Proof.
  intros Hq Hn. rewrite generate_image_eq.
  destruct (Req_dec_T (gal_q + 1) 0); [contradiction|].
  destruct (profiles G _ _ _ _ _ _) as [cls|[psf0 final]].
  { cbn [fst]. intros H. injection H as <-. exists cls. reflexivity. }
  destruct (rendering G final) as [cls|f].
  { cbn [fst]. intros H. injection H as <-. exists cls. reflexivity. }
  cbv zeta. destruct (Rlt_dec noise 0); [contradiction|].
  destruct (rendering G psf0) as [cls|fp].
  { cbn [fst]. intros H. injection H as <-. exists cls. reflexivity. }
  cbn [fst]. intros H. discriminate H.
Qed.

Lemma outcome_shear_norm n gal_q gal_beta noise f :
  (g1 (outcome_of n gal_q gal_beta noise f) ^ 2 +
   g2 (outcome_of n gal_q gal_beta noise f) ^ 2 = shear_magnitude gal_q ^ 2)%R.
Proof.
  cbn [g1 g2 outcome_of].
  pose proof (sin2_cos2 (2 * gal_beta)) as H. unfold Rsqr in H.
  replace ((shear_magnitude gal_q * cos (2 * gal_beta)) ^ 2 +
           (shear_magnitude gal_q * sin (2 * gal_beta)) ^ 2)%R
    with (shear_magnitude gal_q ^ 2 *
          (sin (2 * gal_beta) * sin (2 * gal_beta) +
           cos (2 * gal_beta) * cos (2 * gal_beta)))%R by ring.
  rewrite H. ring.
Qed.

Section MainSafe.

Context (G : Library).
Context (slider : string -> R -> R -> R -> R -> R).

Local Open Scope R_scope.

(** X12.  With sliders that stay between their minimum and maximum, the call
    of [main] can only fail inside GalSim: it raises neither [TypeError], nor
    the [ZeroDivisionError] of line 40 (the axis ratio is at least 0.1976),
    nor the [ValueError] of line 57 (the noise level is at least 200).  When
    it returns, the [snr] it shows is not negative and the shear satisfies
    [g1^2 + g2^2 <= 0.45], well inside the disc GalSim accepts. *)
Theorem sliders_keep_call_safe (w : world G) :
  sliders_in_range slider ->
  (forall e, fst (main_outcome G slider w) = inl e ->
             exists cls, e = Raised (GalSimError cls)) /\
  (forall o, fst (main_outcome G slider w) = inr o ->
             0 <= snr o /\ g1 o ^ 2 + g2 o ^ 2 <= 0.45).
Proof.
  intros Hr. unfold sliders_in_range, params in Hr.
  apply Forall_cons in Hr as [_ Hr]. apply Forall_cons in Hr as [_ Hr].
  apply Forall_cons in Hr as [_ Hr]. apply Forall_cons in Hr as [Hq Hr].
  apply Forall_cons in Hr as [_ Hr]. apply Forall_cons in Hr as [Hn _].
  cbn [param.min param.max param.default param.step] in Hq, Hn.
  unfold main_outcome, generate_image_kwargs.
  rewrite settings_psf_re, settings_bulge_re, settings_bulge_n, settings_gal_q,
    settings_gal_beta, settings_noise, settings_gal_flux.
  rewrite decide_True by (rewrite settings_dom; reflexivity).
  set (q := slider "Ellipticity" 0.1976 1.0 0.6 0.1) in *.
  set (n := slider "Noise level" 200 400 300 10) in *.
  destruct (generate_image G _ _ _ q _ n _ w) as [[e|o] w'] eqn:E;
    cbn [fst]; (split; [intros e' H|intros o' H]);
    try discriminate H; injection H as <-.
  - assert (E1 : fst (generate_image G
                        (slider "PSF moffat scale radius (in arcsec)" 0.5 1.0
                           0.75 0.05)
                        (slider "Sersic radius (in arcsec)" 0.1 0.6 0.35 0.05)
                        (slider "Sersic index" 0.5 6.0 3.25 0.25) q
                        (slider "Orientation (in radians)" 0.0 3.14 (3.14 / 2)
                           0.1) n
                        (slider "Flux" (0.3 * 1e5) (4.0 * 1e5) (2.15 * 1e5)
                           (0.1 * 1e5)) w) = inl e)
      by (rewrite E; reflexivity).
    apply generate_image_guarded in E1 as [cls ->]; [|lra|lra].
    exists cls. reflexivity.
  - apply generate_image_spec in E as (_ & _ & f & fp & _ & -> & _).
    split.
    + cbn [snr outcome_of].
      pose proof (sqrt_pos (Rsum (map (fun x => x ^ 2) (raster f)))) as Hs.
      assert (Hi : 0 < / n) by (apply Rinv_0_lt_compat; lra).
      unfold Rdiv. nra.
    + rewrite outcome_shear_norm. unfold shear_magnitude.
      set (A := (1 - q) / (q + 1)).
      assert (HA : A * (q + 1) = 1 - q) by (unfold A; field; lra).
      assert (HA0 : 0 <= A).
      { unfold A. apply Rmult_le_pos; [lra|].
        left. apply Rinv_0_lt_compat. lra. }
      assert (HA1 : A <= 0.6701) by nra.
      nra.
Qed.

End MainSafe.

(** On the first run of the page every slider has its default value. *)
Lemma sliders_keep_call_safe_witness :
  (forall e,
     fst (main_outcome point_sources (fun _ _ _ default _ => default)
            (module_init point_sources 0%Z 0%Z)) = inl e ->
     exists cls, e = Raised (GalSimError cls)) /\
  (forall o,
     fst (main_outcome point_sources (fun _ _ _ default _ => default)
            (module_init point_sources 0%Z 0%Z)) = inr o ->
     0 <= snr o /\ g1 o ^ 2 + g2 o ^ 2 <= 0.45)%R.
Proof.
  apply (sliders_keep_call_safe point_sources (fun _ _ _ default _ => default)).
  unfold sliders_in_range, params.
  repeat (apply Forall_cons; split;
          [cbn [param.min param.max param.default param.step]; lra|]).
  apply Forall_nil. exact I.
Defined.

(** ** Scaling by any factor *)



(** ** The flux and the library *)



